(** * Conversation turn processor of the recipe chatbot backend

    A shallow embedding of [backend/utils.py]: the module constants
    [SYSTEM_PROMPT] and [MODEL_NAME] and the function [get_agent_response]
    (the specification's [advance_conversation]), with the properties the
    specification states about them.

    Modelling choices.
    - A Python [str] is a Rocq [string] holding its UTF-8 encoding.
    - A message ([Dict[str, str]]) is a finite map from strings to strings.
    - Python lists are objects with an identity: the store maps locations to
      list values, [+] allocates a new list and a plain assignment aliases.
    - [litellm.completion] is an external collaborator: a state-passing
      black box that either raises or returns a response value.  It reads the
      list it is given and does not write to the store.
    - Exceptions are values of [exn]; a computation is a state-and-error
      monad over the [world]. *)

From Stdlib Require Import String Ascii List Arith Lia.
From stdpp Require Import base option list gmap strings.
Import ListNotations.
Open Scope string_scope.

(** ** Python strings and [str.strip] *)

Module PyStr.

Local Open Scope list_scope.

(** The code points for which [str.isspace] holds, each as the bytes of its
    UTF-8 encoding: U+0009..U+000D, U+001C..U+0020, U+0085, U+00A0, U+1680,
    U+2000..U+200A, U+2028, U+2029, U+202F, U+205F and U+3000. *)
Definition utf8 (bs : list nat) : list ascii := map ascii_of_nat bs.

Definition whitespace : list (list ascii) :=
  map utf8
    [ [9]; [10]; [11]; [12]; [13]; [28]; [29]; [30]; [31]; [32];
      [194; 133]; [194; 160]; [225; 154; 128];
      [226; 128; 128]; [226; 128; 129]; [226; 128; 130]; [226; 128; 131];
      [226; 128; 132]; [226; 128; 133]; [226; 128; 134]; [226; 128; 135];
      [226; 128; 136]; [226; 128; 137]; [226; 128; 138];
      [226; 128; 168]; [226; 128; 169]; [226; 128; 175];
      [226; 129; 159]; [227; 128; 128] ].

(** [drop_prefix t s] is the rest of [s] after its prefix [t], if any. *)
Fixpoint drop_prefix (t s : list ascii) : option (list ascii) :=
  match t, s with
  | [], _ => Some s
  | a :: t', b :: s' => if Ascii.eqb a b then drop_prefix t' s' else None
  | _ :: _, [] => None
  end.

(** One leading character of the set [toks] removed, if [s] starts with one. *)
Fixpoint drop_one (toks : list (list ascii)) (s : list ascii)
  : option (list ascii) :=
  match toks with
  | [] => None
  | t :: toks' =>
      match drop_prefix t s with
      | Some r => Some r
      | None => drop_one toks' s
      end
  end.

(** The scanning loop, bounded by the number of bytes left. *)
Fixpoint lstrip_fuel (toks : list (list ascii)) (n : nat) (s : list ascii)
  : list ascii :=
  match n with
  | O => s
  | S n' =>
      match drop_one toks s with
      | Some r => lstrip_fuel toks n' r
      | None => s
      end
  end.

Definition lstrip_with (toks : list (list ascii)) (s : list ascii) :=
  lstrip_fuel toks (length s) s.

Definition lstrip (s : list ascii) : list ascii := lstrip_with whitespace s.

(** Trailing characters are removed by scanning the reversed bytes for the
    reversed encodings. *)
Definition rstrip (s : list ascii) : list ascii :=
  rev (lstrip_with (map (@rev ascii) whitespace) (rev s)).

(** [s.strip()] *)
Definition strip (s : string) : string :=
  string_of_list_ascii (rstrip (lstrip (list_ascii_of_string s))).

(** A run of characters of [toks]. *)
Inductive run (toks : list (list ascii)) : list ascii -> Prop :=
| run_nil : run toks []
| run_cons t r : t ∈ toks -> run toks r -> run toks (t ++ r).

Definition starts_with (toks : list (list ascii)) (s : list ascii) : Prop :=
  exists t r, t ∈ toks /\ s = t ++ r.

Definition ends_with (toks : list (list ascii)) (s : list ascii) : Prop :=
  exists t r, t ∈ toks /\ s = r ++ t.

(** The statements on strings. *)
Definition all_whitespace (s : string) : Prop :=
  run whitespace (list_ascii_of_string s).
Definition leading_whitespace (s : string) : Prop :=
  starts_with whitespace (list_ascii_of_string s).
Definition trailing_whitespace (s : string) : Prop :=
  ends_with whitespace (list_ascii_of_string s).

End PyStr.

(** ** Python values and exceptions *)

(** A subscript: [v["choices"]] or [v[0]]. *)
Inductive pykey : Type :=
| KStr (k : string)
| KInt (i : nat).

(** The values a completion response is made of. *)
#[local] Set Warnings "-register-all".
Inductive pyval : Type :=
| VNone
| VStr (s : string)
| VList (items : list pyval)
| VDict (entries : list (string * pyval)).

(** The exceptions of this module.  [Raised e] is an exception raised inside
    [litellm.completion]; the others come from the subscripts and the method
    call of [get_agent_response] itself.  [InvalidReference] has no Python
    counterpart (a name always refers to a live object): it is what the model
    answers when asked to read a location the store does not hold. *)
Inductive exn (E : Type) : Type :=
| KeyError (k : pykey)
| IndexError
| TypeError
| AttributeError (name : string)
| InvalidReference
| Raised (e : E).

Arguments KeyError {E} k.
Arguments IndexError {E}.
Arguments TypeError {E}.
Arguments AttributeError {E} name.
Arguments InvalidReference {E}.
Arguments Raised {E} e.

Inductive result (E A : Type) : Type :=
| Ok (a : A)
| Raise (e : exn E).

Arguments Ok {E A} a.
Arguments Raise {E A} e.

(** A message, [Dict[str, str]]. *)
Abbreviation message := (gmap string string).

(** [{"role": role, "content": content}] *)
Definition mk_message (role content : string) : message :=
  <["role" := role]> (<["content" := content]> ∅).

Module Py.

Local Open Scope list_scope.

(** Bytes in the UTF-8 encoding of the character that starts with [b]. *)
Definition utf8_width (b : ascii) : nat :=
  let n := nat_of_ascii b in
  if (n <? 192)%nat then 1
  else if (n <? 224)%nat then 2
  else if (n <? 240)%nat then 3
  else 4.

(** The [i]-th character of a string. *)
Fixpoint str_item (i : nat) (s : list ascii) : option (list ascii) :=
  match s with
  | [] => None
  | b :: _ =>
      match i with
      | O => Some (take (utf8_width b) s)
      | S i' => str_item i' (drop (utf8_width b) s)
      end
  end.

Fixpoint assoc (k : string) (entries : list (string * pyval)) : option pyval :=
  match entries with
  | [] => None
  | (k', v) :: rest => if String.eqb k k' then Some v else assoc k rest
  end.

(** [d[k]] on a message. *)
Definition dict_getitem {E} (d : message) (k : string) : result E string :=
  match d !! k with
  | Some v => Ok v
  | None => Raise (KeyError (KStr k))
  end.

(** [v[k]] for a string [k]: only a mapping takes a string subscript. *)
Definition getitem_str {E} (v : pyval) (k : string) : result E pyval :=
  match v with
  | VDict entries =>
      match assoc k entries with
      | Some x => Ok x
      | None => Raise (KeyError (KStr k))
      end
  | VNone | VStr _ | VList _ => Raise TypeError
  end.

(** [v[i]] for a non-negative integer [i]. *)
Definition getitem_int {E} (v : pyval) (i : nat) : result E pyval :=
  match v with
  | VList items =>
      match items !! i with
      | Some x => Ok x
      | None => Raise IndexError
      end
  | VStr s =>
      match str_item i (list_ascii_of_string s) with
      | Some c => Ok (VStr (string_of_list_ascii c))
      | None => Raise IndexError
      end
  | VDict _ => Raise (KeyError (KInt i))
  | VNone => Raise TypeError
  end.

(** [v.strip()]: only [str] has the method. *)
Definition method_strip {E} (v : pyval) : result E string :=
  match v with
  | VStr s => Ok (PyStr.strip s)
  | VNone | VList _ | VDict _ => Raise (AttributeError "strip")
  end.

End Py.

(** ** Module constants *)

Definition SYSTEM_PROMPT : string := "
    **Role & Goal**  
    You are an expert chef and recipe curator for European home cooks. Provide **one well-known, existing recipe per reply** that can be prepared with ingredients easily found in a typical European supermarket or pantry (unless the user explicitly requests a specific dish or ingredient).

    ---

    ## Core Rules (NEVER BREAK THESE)
    1. **No follow-up questions**: each response must contain a complete recipe.  
    2. **Default assumptions** (unless the user states otherwise):  
       * The user has **no food allergies or dietary restrictions**.  
       * The user is in **Europe**. 
       * *Default to metric*, **but if the user explicitly supplies or asks for non-metric units (cups, °F, ounces)**, comply and echo those units.
    3. **Ingredient scope & priority**
        * **3a. Honor explicit user requests first.** If the user names a specific **dish** *or* **ingredient** (even if it is exotic in Europe—e.g., durian, kimchi, masala dosa), assume they can obtain it and provide the recipe without refusing or diverting.
        * **3b. Otherwise, default to widely available European ingredients.** When the user is vague (“suggest a dinner”) or only lists common staples, pick classic recipes that use easy-to-find supermarket items.
        * **3c. No invention.** Never invent entirely new dishes or add hard-to-find ingredients *unless* the user asked for them.
        * **3d. Respect ingredient lists.** If the user provides a list, do not add extras beyond true staples (water, salt, pepper, plain oil, flour). If a key extra is absolutely essential, politely refuse instead of silently adding it.
    4. Ensure all content is **safe, non-harmful, and food-safe** (e.g., no unsafe raw-egg dishes for vulnerable groups).  
    5. Maintain **variety** across consecutive recipes; avoid repeating similar dishes. Be sure to gracefully handle food slang.
    6. **Domain**: provide *food* recipes only. Politely refuse cocktail, pet-food, or medicinal requests. Be sure to gracefully handle food slang.
    7. **Multiple-recipe requests**: always return exactly **one** recipe. If the user explicitly asks for several, explain the one-recipe policy and return the first recipe.
    8. **Allergy / diet acknowledgement**: When the user states a restriction, explicitly confirm compliance in the description (e.g., “This dessert is **nut-free** as requested.”).
    9. **Serving size fidelity**: If the user asks for a specific yield (e.g., pancakes for 10), scale ingredients and set **Serves: 10**; never down-scale.
    10. Your answer must be in the language of the user's query.
    11. Your answer must follow the mandatory markdown output format.

    ---

    ## Mandatory Output Format (Markdown)
    Replace the ALL-CAPS placeholders with actual values:

    ```markdown
    ## RECIPE NAME

    SHORT ONE-SENTENCE DESCRIPTION.

    **Serves:** NUMBER  
    **Prep Time:** MINUTES min  
    **Cook Time:** MINUTES min  
    **Nutrition (per serving):** ENERGY kcal | PROTEIN g | CARBS g | FAT g

    ### Ingredients
    * INGREDIENT – QUANTITY UNIT
    * INGREDIENT – QUANTITY UNIT
    * …

    ### Instructions
    1. STEP ONE
    2. STEP TWO
    3. …

    ### Tips
    * OPTIONAL TIP 1
    * OPTIONAL TIP 2
    ```

    Keep instructions clear and concise, yet descriptive. Use the exact Markdown structure shown above.

    ---

    # Few-shot Example
    ## Spaghetti Aglio e Olio

    A classic Italian pantry pasta of garlic-infused olive oil and chilli tossed with spaghetti.

    **Serves:** 2
    **Prep Time:** 5 min
    **Cook Time:** 10 min
    **Nutrition (per serving):** 520 kcal | 15 g protein | 70 g carbs | 20 g fat

    ### Ingredients
    * Spaghetti – 200 g
    * Extra-virgin olive oil – 30 ml
    * Garlic, thinly sliced – 3 cloves
    * Chilli flakes – 1 g
    * Fresh parsley, chopped – 10 g
    * Salt – 2 g
    * Black pepper – 1 g

    ### Instructions
    1. Bring a large pot of salted water to a boil and cook the spaghetti until al dente (about 8 min).
    2. Meanwhile, heat the olive oil in a skillet over medium heat. Add garlic and chilli flakes; sauté 1-2 min until fragrant but not browned.
    3. Drain spaghetti, reserving 60 ml of pasta water. Add spaghetti to the skillet with the reserved water and toss for 1 min.
    4. Season with salt and pepper, sprinkle with parsley, and toss again until the sauce lightly coats the pasta.
    5. Serve immediately.

    ### Tips
    * Warm the serving bowls to keep the pasta hot.
    * Adjust chilli to taste; omit for a mild version.
    ".

(** [os.environ.get("MODEL_NAME", "gpt-4o-mini")], with [environ] the process
    environment as it is when the module is loaded, after [load_dotenv]. *)
Definition MODEL_NAME (environ : gmap string string) : string :=
  default "gpt-4o-mini" (environ !! "MODEL_NAME").

(** ** The store, the collaborator and the monad *)

(** A reference to a list object. *)
Abbreviation loc := nat.

(** The state a call runs in: the list objects that exist, the requests sent
    to the completion service so far (model and messages, oldest first; kept
    to state what was sent), and the state of the service itself. *)
Record world (S : Type) : Type := World {
  heap : list (list message);
  calls : list (string * list message);
  ext : S
}.

Arguments World {S} heap calls ext.
Arguments heap {S} w.
Arguments calls {S} w.
Arguments ext {S} w.

(** A computation: from a world to a value or an exception, and a world. *)
Definition M (E S A : Type) : Type := world S -> result E A * world S.

Definition ret {E S A} (a : A) : M E S A := fun w => (Ok a, w).

Definition bind {E S A B} (c : M E S A) (k : A -> M E S B) : M E S B :=
  fun w =>
    match c w with
    | (Ok a, w') => k a w'
    | (Raise e, w') => (Raise e, w')
    end.

Definition lift {E S A} (r : result E A) : M E S A := fun w => (r, w).

Declare Scope py_scope.
Delimit Scope py_scope with py.
Notation "'let*' x ':=' c 'in' k" := (bind c (fun x => k))
  (at level 10, x name, c at level 100, k at level 200) : py_scope.

Section Processor.

(** What the completion service raises, and its internal state. *)
Context {E S : Type}.

(** [litellm.completion(model=..., messages=...)]: the service answers
    with a response value or raises, and moves to a new state. *)
Variable service : S -> string -> list message -> (pyval + E) * S.

(** The process environment when the module is loaded. *)
Variable environ : gmap string string.

Local Open Scope py_scope.
Local Open Scope list_scope.

(** Reading the list a name refers to. *)
Definition load (l : loc) : M E S (list message) :=
  fun w =>
    match heap w !! l with
    | Some ms => (Ok ms, w)
    | None => (Raise InvalidReference, w)
    end.

(** A list display [[m1, ..., mk]]: a new list object. *)
Definition list_new (ms : list message) : M E S loc :=
  fun w => (Ok (length (heap w)),
            World (heap w ++ [ms]) (calls w) (ext w)).

(** [a + b] on lists: a new list object, the operands untouched. *)
Definition list_add (a b : loc) : M E S loc :=
  let* xs := load a in
  let* ys := load b in
  list_new (xs ++ ys).

(** The call of the collaborator, which is given the list object. *)
Definition litellm_completion (model : string) (messages : loc)
  : M E S pyval :=
  let* ms := load messages in
  fun w =>
    let '(answer, s) := service (ext w) model ms in
    (match answer with
     | inl response => Ok response
     | inr e => Raise (Raised e)
     end,
     World (heap w) (calls w ++ [(model, ms)]) s).

(** [get_agent_response(messages)] *)
Definition get_agent_response (messages : loc) : M E S loc :=
  let* ms := load messages in
  (* if not messages or messages[0]["role"] != "system": *)
  let* inject :=
    match ms with
    | [] => ret true
    | m0 :: _ =>
        let* role := lift (Py.dict_getitem m0 "role") in
        ret (negb (String.eqb role "system"))
    end in
  let* current_messages :=
    if inject : bool then
      (* [{"role": "system", "content": SYSTEM_PROMPT}] + messages *)
      let* lit := list_new [mk_message "system" SYSTEM_PROMPT] in
      list_add lit messages
    else
      (* current_messages = messages: the same list object *)
      ret messages in
  (* litellm.completion(model=MODEL_NAME, messages=current_messages) *)
  let* completion := litellm_completion (MODEL_NAME environ) current_messages in
  (* completion["choices"][0]["message"]["content"].strip() *)
  let* choices := lift (Py.getitem_str completion "choices") in
  let* choice := lift (Py.getitem_int choices 0) in
  let* message := lift (Py.getitem_str choice "message") in
  let* content := lift (Py.getitem_str message "content") in
  let* assistant_reply_content := lift (Py.method_strip content) in
  (* current_messages + [{"role": "assistant", "content": ...}] *)
  let* lit := list_new [mk_message "assistant" assistant_reply_content] in
  let* updated_messages := list_add current_messages lit in
  ret updated_messages.

End Processor.

(** ** The parts of a call *)

Definition system_message : message := mk_message "system" SYSTEM_PROMPT.

Definition assistant_message (text : string) : message :=
  mk_message "assistant" text.

Section Outcome.

Context {E S : Type}.
Variable service : S -> string -> list message -> (pyval + E) * S.
Variable environ : gmap string string.

Local Open Scope list_scope.

(** The test of the first branch: whether the system message is put in
    front, or the exception the subscript raises. *)
Definition injects (history : list message) : result E bool :=
  match history with
  | [] => Ok true
  | m0 :: _ =>
      match m0 !! "role" with
      | Some role => Ok (negb (String.eqb role "system"))
      | None => Raise (KeyError (KStr "role"))
      end
  end.

(** [completion["choices"][0]["message"]["content"].strip()] *)
Definition reply_text (response : pyval) : result E string :=
  match Py.getitem_str response "choices" with
  | Raise e => Raise e
  | Ok choices =>
      match Py.getitem_int choices 0 with
      | Raise e => Raise e
      | Ok choice =>
          match Py.getitem_str choice "message" with
          | Raise e => Raise e
          | Ok message =>
              match Py.getitem_str message "content" with
              | Raise e => Raise e
              | Ok content => Py.method_strip content
              end
          end
      end
  end.

(** The reply taken from what the call of the service gave. *)
Definition reply_of (answer : pyval + E) : result E string :=
  match answer with
  | inl response => reply_text response
  | inr e => Raise (Raised e)
  end.

(** The sequence sent to the service. *)
Definition effective (inject : bool) (history : list message)
  : list message :=
  if inject then system_message :: history else history.

(** The store once the sequence to send exists. *)
Definition heap_sent (inject : bool) (history : list message)
    (h : list (list message)) : list (list message) :=
  if inject then h ++ [[system_message]; system_message :: history] else h.

End Outcome.

(** ** Callers *)

Section Session.

Context {E S : Type}.
Variable service : S -> string -> list message -> (pyval + E) * S.
Variable environ : gmap string string.

(** A caller that calls [get_agent_response] on one list after the other,
    whatever each call gives. *)
Fixpoint session (inputs : list loc) (w : world S) : world S :=
  match inputs with
  | [] => w
  | messages :: later =>
      session later (snd (get_agent_response service environ messages w))
  end.

(** The number of messages of a sequence whose role is [system]. *)
Definition system_count (ms : list message) : nat :=
  length (filter (fun m : message => m !! "role" = Some "system") ms).

End Session.

(** Services and stores to run the function on. *)
Module Fixture.

Definition newline : string := String (ascii_of_nat 10) EmptyString.

(** A response with one choice whose message has the content [raw]. *)
Definition response_with (raw : pyval) : pyval :=
  VDict [("choices",
          VList [VDict [("message", VDict [("content", raw)])]])].

(** A service that answers every request with the same padded text and
    counts the requests. *)
Definition greeter (n : nat) (model : string) (ms : list message)
  : (pyval + string) * nat :=
  (inl (response_with (VStr ("  Hello there  " ++ newline))), Datatypes.S n).

(** A service that raises on every request. *)
Definition refusing (n : nat) (model : string) (ms : list message)
  : (pyval + string) * nat :=
  (inr "RateLimitError", Datatypes.S n).

(** A service that answers with an empty list of choices. *)
Definition silent (n : nat) (model : string) (ms : list message)
  : (pyval + string) * nat :=
  (inl (VDict [("choices", VList [])]), Datatypes.S n).

(** A store holding the caller's list at location 0. *)
Definition start (history : list message) : world nat :=
  World [history] [] 0.

(** The module loaded in an environment without [MODEL_NAME], and a first
    call, on the list at location 0, with each of the services. *)
Definition no_environ : gmap string string := ∅.

Definition greeted (history : list message) : result string loc * world nat :=
  get_agent_response greeter no_environ 0 (start history).

Definition refused (history : list message) : result string loc * world nat :=
  get_agent_response refusing no_environ 0 (start history).

Definition unanswered (history : list message)
  : result string loc * world nat :=
  get_agent_response silent no_environ 0 (start history).

(** Histories. *)
Definition user_hi : list message := [mk_message "user" "hi"].

Definition custom_hi : list message :=
  [mk_message "system" "custom"; mk_message "user" "hi"].

Definition capital_system : list message := [mk_message "System" "Be brief."].

Definition unknown_role : list message := [mk_message "chef" ""].

Definition no_role : list message := [<["content" := "hi"]> ∅].

End Fixture.

(** ** The response read, and the module loaded *)

Section Reading.

Context {E : Type}.

(** [completion["choices"][0]["message"]["content"]], before [.strip()]. *)
Definition first_choice_content (response : pyval) : result E pyval :=
  match Py.getitem_str response "choices" with
  | Raise e => Raise e
  | Ok choices =>
      match Py.getitem_int choices 0 with
      | Raise e => Raise e
      | Ok choice =>
          match Py.getitem_str choice "message" with
          | Raise e => Raise e
          | Ok message => Py.getitem_str message "content"
          end
      end
  end.

End Reading.

(** A history on which [messages[0]["role"]] can be read when it is reached:
    an empty one, or one whose first message has a [role] entry. *)
Definition role_readable (history : list message) : Prop :=
  match history with
  | [] => True
  | m0 :: _ => is_Some (m0 !! "role")
  end.



(** More services and histories to run the function on. *)
Module Replies.

Import Fixture.

(** A service that answers with a text of whitespace only. *)
Definition blank (n : nat) (model : string) (ms : list message)
  : (pyval + string) * nat :=
  (inl (response_with (VStr ("   " ++ newline))), Datatypes.S n).

(** A service that answers with a text without whitespace around it. *)
Definition plain (n : nat) (model : string) (ms : list message)
  : (pyval + string) * nat :=
  (inl (response_with (VStr "Use 200 g  of spaghetti.")), Datatypes.S n).

(** A service that answers with a message whose content is [None]. *)
Definition contentless (n : nat) (model : string) (ms : list message)
  : (pyval + string) * nat :=
  (inl (response_with VNone), Datatypes.S n).

(** A response with two choices, and a service that answers with it. *)
Definition two_choice_response : pyval :=
  VDict [("choices",
          VList [VDict [("message", VDict [("content", VStr " first ")])];
                 VDict [("message", VDict [("content", VStr "second")])]])].

Definition two_choices (n : nat) (model : string) (ms : list message)
  : (pyval + string) * nat :=
  (inl two_choice_response, Datatypes.S n).

(** A response whose only choice has no message, and a service that answers
    with it. *)
Definition messageless_entries : list (string * pyval) :=
  [("id", VStr "r1"); ("choices", VList [VDict []])].

Definition messageless (n : nat) (model : string) (ms : list message)
  : (pyval + string) * nat :=
  (inl (VDict messageless_entries), Datatypes.S n).

(** A history with a system message that is not the first message. *)
Definition late_system : list message :=
  [mk_message "user" "hi"; mk_message "system" "custom"].

(** The caller's store after a first call on [user_hi] and one more message
    put behind its result, in a new list at location 5. *)
Definition second_turn : world nat :=
  let w1 := (greeted user_hi).2 in
  World (heap w1 ++
         [[system_message; mk_message "user" "hi";
           mk_message "assistant" "Hello there";
           mk_message "user" "thanks"]])
        (calls w1) (ext w1).

End Replies.

(** ** Facts about [str.strip] *)

Module PyStrFacts.

Import PyStr.
Local Open Scope list_scope.

Lemma drop_prefix_Some t : forall s r,
  drop_prefix t s = Some r <-> s = t ++ r.
Proof.
  induction t as [|a t IH]; intros s r; simpl.
  - split; [intros [= ->]; reflexivity | intros ->; reflexivity].
  - destruct s as [|b s].
    + split; [discriminate | intros [=]].
    + destruct (Ascii.eqb_spec a b) as [->|Hab].
      * rewrite IH. split; [intros ->; reflexivity | intros [= ->]; reflexivity].
      * split; [discriminate | intros [= Hb _]; congruence].
Qed.

Lemma drop_one_Some toks : forall s r,
  drop_one toks s = Some r -> exists t, t ∈ toks /\ s = t ++ r.
Proof.
  induction toks as [|t toks IH]; intros s r; simpl; [discriminate|].
  destruct (drop_prefix t s) as [r'|] eqn:E.
  - intros [= <-]. exists t. split; [left | by apply drop_prefix_Some].
  - intros H. destruct (IH _ _ H) as (t' & Hin & ->).
    exists t'. split; [by right | reflexivity].
Qed.

Lemma drop_one_None toks s :
  drop_one toks s = None <-> ~ starts_with toks s.
Proof.
  induction toks as [|t toks IH]; simpl.
  - split; [|reflexivity]. intros _ (t & r & Hin & _). inversion Hin.
  - destruct (drop_prefix t s) as [r'|] eqn:E.
    + split; [discriminate|]. intros H. exfalso. apply H.
      exists t, r'. split; [left | by apply drop_prefix_Some].
    + rewrite IH. split; intros H (t' & r & Hin & ->); apply H.
      * apply elem_of_cons in Hin as [->|Hin].
        -- assert (drop_prefix t (t ++ r) = Some r) as E'
             by (by apply drop_prefix_Some).
           congruence.
        -- by exists t', r.
      * exists t', r. split; [by right | reflexivity].
Qed.

Lemma lstrip_fuel_run toks n : forall s,
  exists pre, s = pre ++ lstrip_fuel toks n s /\ run toks pre.
Proof.
  induction n as [|n IH]; intros s; simpl.
  - exists []. split; [reflexivity | constructor].
  - destruct (drop_one toks s) as [r|] eqn:E.
    + destruct (drop_one_Some _ _ _ E) as (t & Hin & ->).
      destruct (IH r) as (pre & Hr & Hrun).
      exists (t ++ pre). split; [| by constructor].
      rewrite <- app_assoc. by rewrite <- Hr.
    + exists []. split; [reflexivity | constructor].
Qed.

(** With every character of [toks] at least one byte long, as many rounds
    as there are bytes are enough: the scan stops at a byte that starts no
    character of [toks]. *)
Lemma lstrip_fuel_done toks (Hne : Forall (fun t => t <> []) toks) n :
  forall s, length s <= n -> drop_one toks (lstrip_fuel toks n s) = None.
Proof.
  induction n as [|n IH]; intros s Hlen; simpl.
  - destruct s; [|simpl in Hlen; lia].
    apply drop_one_None. intros (t & r & Hin & Heq).
    symmetry in Heq. apply app_eq_nil in Heq as [-> _].
    rewrite Forall_forall in Hne. by apply (Hne [] Hin).
  - destruct (drop_one toks s) as [r|] eqn:E; [|exact E].
    apply IH. destruct (drop_one_Some _ _ _ E) as (t & Hin & ->).
    rewrite Forall_forall in Hne. specialize (Hne t Hin).
    rewrite length_app in Hlen. destruct t; [done|]. simpl in Hlen. lia.
Qed.

Lemma whitespace_nonempty : Forall (fun t : list ascii => t <> []) whitespace.
Proof. unfold whitespace. repeat constructor; discriminate. Qed.

Lemma run_app toks a b : run toks a -> run toks b -> run toks (a ++ b).
Proof.
  induction 1 as [|t r Hin _ IH]; intros Hb; [exact Hb|].
  rewrite <- app_assoc. constructor; auto.
Qed.

Lemma run_rev toks s : run (map (@rev ascii) toks) s -> run toks (rev s).
Proof.
  induction 1 as [|t r Hin _ IH]; [constructor|].
  rewrite rev_app_distr. apply run_app; [exact IH|].
  apply list_elem_of_fmap in Hin as (t0 & -> & Hin0).
  rewrite rev_involutive.
  rewrite <- (app_nil_r t0). constructor; [exact Hin0 | constructor].
Qed.

Lemma whitespace_rev_nonempty :
  Forall (fun t : list ascii => t <> []) (map (@rev ascii) whitespace).
Proof. unfold whitespace. repeat constructor; discriminate. Qed.

Lemma lstrip_split s :
  exists pre, s = pre ++ lstrip s /\ run whitespace pre /\
              ~ starts_with whitespace (lstrip s).
Proof.
  destruct (lstrip_fuel_run whitespace (length s) s) as (pre & Hs & Hrun).
  exists pre. split; [exact Hs|]. split; [exact Hrun|].
  apply drop_one_None.
  by apply (lstrip_fuel_done _ whitespace_nonempty).
Qed.

Lemma rstrip_split s :
  exists suf, s = rstrip s ++ suf /\ run whitespace suf /\
              ~ ends_with whitespace (rstrip s).
Proof.
  unfold rstrip, lstrip_with.
  destruct (lstrip_fuel_run (map (@rev ascii) whitespace)
              (length (rev s)) (rev s)) as (pre & Hs & Hrun).
  pose proof (lstrip_fuel_done _ whitespace_rev_nonempty
                (length (rev s)) (rev s) (le_n _)) as Hdone.
  set (q := lstrip_fuel _ _ _) in *.
  exists (rev pre). split; [|split].
  - rewrite <- rev_app_distr, <- Hs. by rewrite rev_involutive.
  - by apply run_rev.
  - intros (t & r & Hin & Heq).
    apply drop_one_None in Hdone. apply Hdone.
    exists (rev t), (rev r). split.
    + apply list_elem_of_fmap. by exists t.
    + rewrite <- rev_app_distr, <- Heq. by rewrite rev_involutive.
Qed.

Lemma string_of_list_ascii_app (a b : list ascii) :
  string_of_list_ascii (a ++ b) =
  (string_of_list_ascii a ++ string_of_list_ascii b)%string.
Proof. induction a as [|c a IH]; simpl; [reflexivity | by rewrite IH]. Qed.

(** What [strip] returns: the argument is a run of whitespace, then the
    result, then a run of whitespace, and the result neither starts nor ends
    with a whitespace character. *)
Lemma strip_spec (s : string) :
  exists pre suf : string,
    s = (pre ++ strip s ++ suf)%string /\
    all_whitespace pre /\ all_whitespace suf /\
    ~ leading_whitespace (strip s) /\ ~ trailing_whitespace (strip s).
Proof.
  unfold all_whitespace, leading_whitespace, trailing_whitespace, strip.
  set (l := list_ascii_of_string s).
  destruct (lstrip_split l) as (pre & Hl & Hpre & Hlead).
  destruct (rstrip_split (lstrip l)) as (suf & Hm & Hsuf & Htrail).
  exists (string_of_list_ascii pre), (string_of_list_ascii suf).
  rewrite !list_ascii_of_string_of_list_ascii.
  split; [|split; [exact Hpre|split; [exact Hsuf|split; [|exact Htrail]]]].
  - rewrite <- (string_of_list_ascii_of_string s). fold l.
    rewrite <- !string_of_list_ascii_app. f_equal.
    rewrite <- Hm. exact Hl.
  - intros (t & r & Hin & Heq). apply Hlead.
    exists t, (r ++ suf). split; [exact Hin|].
    rewrite Hm at 1. rewrite Heq. by rewrite <- app_assoc.
Qed.

End PyStrFacts.

(** ** The call in closed form *)

Section Closed.

Context {E S : Type}.
Variable service : S -> string -> list message -> (pyval + E) * S.
Variable environ : gmap string string.

Local Open Scope list_scope.

Lemma lookup_app_length {A} (l : list A) (x : A) (k : list A) :
  (l ++ x :: k) !! length l = Some x.
Proof. by rewrite list_lookup_middle. Qed.

Lemma lookup_app_length2 {A} (l : list A) (x y : A) :
  ((l ++ [x]) ++ [y]) !! length l = Some x.
Proof.
  rewrite lookup_app_l by (rewrite length_app; simpl; lia).
  apply lookup_app_length.
Qed.

Ltac crunch Hm Hlt :=
  repeat (progress (unfold bind, ret, lift, load, list_new, list_add,
                      litellm_completion; simpl)
          || rewrite Hm
          || rewrite lookup_app_length
          || rewrite lookup_app_length2
          || rewrite (lookup_app_l _ _ _ Hlt)).

Ltac finish :=
  rewrite <- ?app_assoc; simpl; rewrite ?length_app; simpl;
  rewrite ?Nat.add_1_r, ?Nat.add_succ_r, ?Nat.add_0_r;
  try reflexivity.

Ltac answer_cases s Hm Hlt :=
  destruct (service s _ _) as [[response|e] s']; simpl; [|finish];
  unfold reply_text;
  destruct (Py.getitem_str response "choices") as [choices|e]; [|finish];
  destruct (Py.getitem_int choices 0) as [choice|e]; [|finish];
  destruct (Py.getitem_str choice "message") as [message|e]; [|finish];
  destruct (Py.getitem_str message "content") as [content|e]; [|finish];
  destruct (Py.method_strip content) as [text|e]; [|finish];
  crunch Hm Hlt; finish.

(** [get_agent_response] on a live list, as one expression. *)
Lemma get_agent_response_closed (w : world S) (messages : loc)
    (history : list message) :
  heap w !! messages = Some history ->
  get_agent_response service environ messages w =
    match injects history with
    | Raise e => (Raise e, w)
    | Ok inject =>
        let eff := effective inject history in
        let h1 := heap_sent inject history (heap w) in
        let answer := service (ext w) (MODEL_NAME environ) eff in
        let calls1 := calls w ++ [(MODEL_NAME environ, eff)] in
        match reply_of (fst answer) with
        | Raise e => (Raise e, World h1 calls1 (snd answer))
        | Ok text =>
            (Ok (Datatypes.S (length h1)),
             World (h1 ++ [[assistant_message text];
                           eff ++ [assistant_message text]])
                   calls1 (snd answer))
        end
    end.
Proof.
  intros Hm.
  pose proof (lookup_lt_Some _ _ _ Hm) as Hlt.
  destruct w as [h cs s]. simpl in *.
  unfold get_agent_response, system_message, assistant_message.
  destruct history as [|m0 rest]; simpl.
  - crunch Hm Hlt. answer_cases s Hm Hlt.
  - crunch Hm Hlt. unfold Py.dict_getitem.
    destruct (m0 !! "role") as [role|]; [|reflexivity].
    destruct (String.eqb role "system"); crunch Hm Hlt;
      answer_cases s Hm Hlt.
Qed.

End Closed.

(** ** Consequences of the closed form *)

Section Facts.

Context {E S : Type}.
Variable service : S -> string -> list message -> (pyval + E) * S.
Variable environ : gmap string string.

Local Open Scope list_scope.

Local Abbreviation run := (get_agent_response service environ).

Lemma assistant_message_role (text : string) :
  assistant_message text !! "role" = Some "assistant".
Proof. unfold assistant_message, mk_message. by rewrite lookup_insert_eq. Qed.

Lemma system_count_reply (ms : list message) (text : string) :
  system_count (ms ++ [assistant_message text]) = system_count ms.
Proof.
  unfold system_count. rewrite filter_app, length_app.
  rewrite (filter_cons_False _ (assistant_message text) []).
  - simpl. lia.
  - rewrite assistant_message_role. discriminate.
Qed.

Lemma injects_true (history : list message) :
  history = [] \/
  (exists m0 rest role,
      history = m0 :: rest /\ m0 !! "role" = Some role /\ role <> "system") ->
  @injects E history = Ok true.
Proof.
  intros [-> | (m0 & rest & role & -> & Hrole & Hne)]; simpl; [reflexivity|].
  rewrite Hrole. f_equal.
  destruct (String.eqb_spec role "system"); [contradiction | reflexivity].
Qed.

Lemma injects_false (m0 : message) (rest : list message) :
  m0 !! "role" = Some "system" -> @injects E (m0 :: rest) = Ok false.
Proof. intros Hrole. simpl. by rewrite Hrole. Qed.

(** The request a call sends, once the test of the first branch is passed. *)
Lemma run_calls (w : world S) (messages : loc) (history : list message)
    (inject : bool) :
  heap w !! messages = Some history ->
  @injects E history = Ok inject ->
  calls (run messages w).2 =
    calls w ++ [(MODEL_NAME environ, effective inject history)].
Proof.
  intros Hm Hi. rewrite (get_agent_response_closed _ _ _ _ _ Hm), Hi. simpl.
  by destruct (reply_of _).
Qed.

(** What a call that returns has done. *)
Lemma run_ok (w : world S) (messages l : loc) (history : list message) :
  heap w !! messages = Some history ->
  (run messages w).1 = Ok l ->
  exists inject text,
    @injects E history = Ok inject /\
    reply_of (service (ext w) (MODEL_NAME environ)
                (effective inject history)).1 = Ok text /\
    l = Datatypes.S (length (heap_sent inject history (heap w))) /\
    heap (run messages w).2 =
      heap_sent inject history (heap w) ++
      [[assistant_message text];
       effective inject history ++ [assistant_message text]] /\
    ext (run messages w).2 =
      (service (ext w) (MODEL_NAME environ)
         (effective inject history)).2 /\
    heap (run messages w).2 !! l =
      Some (effective inject history ++ [assistant_message text]).
Proof.
  intros Hm. rewrite (get_agent_response_closed _ _ _ _ _ Hm).
  destruct (injects history) as [inject|e]; [|discriminate].
  simpl. destruct (reply_of _) as [text|e] eqn:Hr; [|discriminate].
  simpl. intros [= <-]. exists inject, text.
  repeat (split; [reflexivity|]).
  rewrite lookup_app_r by lia.
  by replace (_ - _) with 1 by lia.
Qed.

(** The list a call returns. *)
Lemma run_ok_lookup (w : world S) (messages l : loc)
    (history : list message) :
  heap w !! messages = Some history ->
  (run messages w).1 = Ok l ->
  exists inject text,
    @injects E history = Ok inject /\
    heap (run messages w).2 !! l =
      Some (effective inject history ++ [assistant_message text]).
Proof.
  intros Hm Hok.
  destruct (run_ok _ _ _ _ Hm Hok) as (inject & text & Hi & _ & _ & _ & _ & Hl).
  by exists inject, text.
Qed.

(** A call only adds list objects. *)
Lemma run_heap_extends (w : world S) (messages : loc) :
  exists fresh, heap (run messages w).2 = heap w ++ fresh.
Proof.
  destruct (heap w !! messages) as [history|] eqn:Hm.
  - rewrite (get_agent_response_closed _ _ _ _ _ Hm).
    destruct (injects history) as [inject|e]; simpl;
      [|exists []; by rewrite app_nil_r].
    destruct (reply_of _) as [text|e]; simpl.
    + destruct inject; simpl; eexists; rewrite <- ?app_assoc; reflexivity.
    + destruct inject; simpl; [eexists; reflexivity|].
      exists []. by rewrite app_nil_r.
  - exists []. rewrite app_nil_r.
    unfold get_agent_response, bind, load. by rewrite Hm.
Qed.

Lemma run_heap_old (w : world S) (messages k : loc) (old : list message) :
  heap w !! k = Some old -> heap (run messages w).2 !! k = Some old.
Proof.
  intros Hk. destruct (run_heap_extends w messages) as (fresh & ->).
  by apply lookup_app_l_Some.
Qed.

(** The requests of one call: at most one, for the model of the module. *)
Lemma run_calls_model (w : world S) (messages : loc) :
  exists sent,
    calls (run messages w).2 = calls w ++ sent /\
    length sent <= 1 /\
    Forall (fun c : string * list message => c.1 = MODEL_NAME environ) sent.
Proof.
  destruct (heap w !! messages) as [history|] eqn:Hm.
  - rewrite (get_agent_response_closed _ _ _ _ _ Hm).
    destruct (injects history) as [inject|e]; simpl.
    + exists [(MODEL_NAME environ, effective inject history)].
      split; [by destruct (reply_of _)|].
      split; [simpl; lia | by repeat constructor].
    + exists []. rewrite app_nil_r. by repeat split; [simpl; lia | constructor].
  - exists []. rewrite app_nil_r.
    unfold get_agent_response, bind, load. rewrite Hm.
    by repeat split; [simpl; lia | constructor].
Qed.

Lemma session_calls_model (inputs : list loc) : forall w : world S,
  exists sent,
    calls (session service environ inputs w) = calls w ++ sent /\
    Forall (fun c : string * list message => c.1 = MODEL_NAME environ) sent.
Proof.
  induction inputs as [|messages later IH]; intros w; simpl.
  - exists []. by rewrite app_nil_r.
  - destruct (run_calls_model w messages) as (sent1 & Hc1 & _ & Hall1).
    destruct (IH (run messages w).2) as (sent2 & Hc2 & Hall2).
    exists (sent1 ++ sent2). split.
    + by rewrite Hc2, Hc1, app_assoc.
    + by apply Forall_app.
Qed.

End Facts.

(** ** The properties of the specification *)

Section Claims.

Context {E S : Type}.
Variable service : S -> string -> list message -> (pyval + E) * S.
Variable environ : gmap string string.

Local Open Scope list_scope.

Local Abbreviation run := (get_agent_response service environ).

(** C1.  For a history that is empty or whose first message has a role
    other than [system], the sequence sent to the completion service is the
    history, unchanged, behind exactly one new message
    [{"role": "system", "content": SYSTEM_PROMPT}]; when the call returns,
    the returned list starts with that message (so it does for the empty
    history). *)
Theorem system_message_injected (w : world S) (messages : loc)
    (history : list message) :
  heap w !! messages = Some history ->
  history = [] \/
  (exists m0 rest role,
      history = m0 :: rest /\ m0 !! "role" = Some role /\ role <> "system") ->
  let sys : message :=
    <["role" := "system"]> (<["content" := SYSTEM_PROMPT]> ∅) in
  sys !! "role" = Some "system" /\
  sys !! "content" = Some SYSTEM_PROMPT /\
  calls (run messages w).2 =
    calls w ++ [(MODEL_NAME environ, sys :: history)] /\
  (forall l, (run messages w).1 = Ok l ->
     exists reply,
       heap (run messages w).2 !! l = Some (sys :: history ++ [reply])).
Proof.
  intros Hm Hcase sys.
  pose proof (injects_true (E := E) history Hcase) as Hi.
  split; [reflexivity|]. split; [reflexivity|]. split.
  - exact (run_calls _ _ _ _ _ _ Hm Hi).
  - intros l Hok.
    destruct (run_ok_lookup _ _ _ _ _ _ Hm Hok) as (inject & text & Hi' & Hl).
    rewrite Hi in Hi'. injection Hi' as <-.
    exists (assistant_message text). exact Hl.
Qed.

(** C2.  For a history whose first message has the role [system], the
    sequence sent to the completion service is the history itself, and when
    the call returns, the returned list starts with the caller's first
    message as it was given, whatever its content: [SYSTEM_PROMPT] is
    neither put in front nor put in its place. *)
Theorem leading_system_message_kept (w : world S) (messages : loc)
    (m0 : message) (rest : list message) :
  heap w !! messages = Some (m0 :: rest) ->
  m0 !! "role" = Some "system" ->
  calls (run messages w).2 =
    calls w ++ [(MODEL_NAME environ, m0 :: rest)] /\
  (forall l, (run messages w).1 = Ok l ->
     exists reply,
       heap (run messages w).2 !! l = Some (m0 :: rest ++ [reply])).
Proof.
  intros Hm Hrole.
  pose proof (injects_false (E := E) m0 rest Hrole) as Hi.
  split.
  - exact (run_calls _ _ _ _ _ _ Hm Hi).
  - intros l Hok.
    destruct (run_ok_lookup _ _ _ _ _ _ Hm Hok) as (inject & text & Hi' & Hl).
    rewrite Hi in Hi'. injection Hi' as <-.
    exists (assistant_message text). exact Hl.
Qed.

(** C3.  When the call returns, the returned list is the sequence that was
    sent to the service followed by exactly one message, whose role is
    [assistant]; the sequence sent is the history behind at most one
    message, so the history is in the result unchanged and in order.  The
    returned list is a new object: the caller's list, like every list that
    existed before the call, holds what it held. *)
Theorem one_reply_appended (w : world S) (messages l : loc)
    (history : list message) :
  heap w !! messages = Some history ->
  (run messages w).1 = Ok l ->
  exists (front sent : list message) (text : string),
    calls (run messages w).2 = calls w ++ [(MODEL_NAME environ, sent)] /\
    sent = front ++ history /\
    length front <= 1 /\
    heap (run messages w).2 !! l =
      Some (sent ++ [mk_message "assistant" text]) /\
    l <> messages /\
    heap w !! l = None /\
    heap (run messages w).2 !! messages = Some history /\
    (forall k old, heap w !! k = Some old ->
                   heap (run messages w).2 !! k = Some old).
Proof.
  intros Hm Hok.
  destruct (run_ok_lookup _ _ _ _ _ _ Hm Hok) as (inject & text & Hi & Hl).
  destruct (run_ok _ _ _ _ _ _ Hm Hok) as (inject' & _ & Hi' & _ & Hloc & _).
  rewrite Hi in Hi'. injection Hi' as <-.
  assert (Hfresh : length (heap w) <= l).
  { rewrite Hloc. destruct inject; simpl; rewrite ?length_app; lia. }
  exists (if inject then [system_message] else []),
         (effective inject history), text.
  split; [exact (run_calls _ _ _ _ _ _ Hm Hi)|].
  split; [by destruct inject|].
  split; [destruct inject; simpl; lia|].
  split; [exact Hl|].
  pose proof (lookup_lt_Some _ _ _ Hm) as Hlt.
  split; [lia|].
  split; [by apply lookup_ge_None_2|].
  split; [by apply run_heap_old|].
  intros k old Hk. by apply run_heap_old.
Qed.

(** C4.  When the call returns for a history of [N] messages, the returned
    list has [N + 1] messages if the first message of the history has the
    role [system] (nothing was put in front), and [N + 2] if the history is
    empty or its first message has another role. *)
Theorem result_length (w : world S) (messages l : loc)
    (history : list message) :
  heap w !! messages = Some history ->
  (run messages w).1 = Ok l ->
  exists out,
    heap (run messages w).2 !! l = Some out /\
    ((exists m0 rest,
         history = m0 :: rest /\ m0 !! "role" = Some "system") ->
     calls (run messages w).2 = calls w ++ [(MODEL_NAME environ, history)] /\
     length out = length history + 1) /\
    (history = [] \/
     (exists m0 rest role,
         history = m0 :: rest /\ m0 !! "role" = Some role /\
         role <> "system") ->
     calls (run messages w).2 =
       calls w ++ [(MODEL_NAME environ, system_message :: history)] /\
     length out = length history + 2).
Proof.
  intros Hm Hok.
  destruct (run_ok_lookup _ _ _ _ _ _ Hm Hok) as (inject & text & Hi & Hl).
  eexists. split; [exact Hl|].
  pose proof (run_calls service environ _ _ _ _ Hm Hi) as Hc.
  split.
  - intros (m0 & rest & -> & Hrole).
    rewrite (injects_false m0 rest Hrole) in Hi. injection Hi as <-.
    split; [exact Hc|]. simpl. rewrite length_app. simpl. lia.
  - intros Hcase.
    rewrite (injects_true history Hcase) in Hi. injection Hi as <-.
    split; [exact Hc|]. simpl. rewrite length_app. simpl. lia.
Qed.

(** C5.  When the call returns, the content of the appended message is the
    content of the message of the first choice of the response, a text,
    with the whitespace at both ends removed: the text is a run of
    whitespace, the content, and a run of whitespace, and the content
    neither starts nor ends with a whitespace character.  A response text
    of two spaces, [Hello there], two spaces and a newline gives
    [Hello there]. *)
Theorem reply_content_stripped (w : world S) (messages l : loc)
    (history : list message) :
  heap w !! messages = Some history ->
  (run messages w).1 = Ok l ->
  exists (sent : list message) (response choices choice message : pyval)
         (raw : string),
    calls (run messages w).2 = calls w ++ [(MODEL_NAME environ, sent)] /\
    (service (ext w) (MODEL_NAME environ) sent).1 = inl response /\
    Py.getitem_str (E := E) response "choices" = Ok choices /\
    Py.getitem_int (E := E) choices 0 = Ok choice /\
    Py.getitem_str (E := E) choice "message" = Ok message /\
    Py.getitem_str (E := E) message "content" = Ok (VStr raw) /\
    heap (run messages w).2 !! l =
      Some (sent ++ [mk_message "assistant" (PyStr.strip raw)]) /\
    (exists pre suf : string,
        raw = (pre ++ PyStr.strip raw ++ suf)%string /\
        PyStr.all_whitespace pre /\ PyStr.all_whitespace suf) /\
    ~ PyStr.leading_whitespace (PyStr.strip raw) /\
    ~ PyStr.trailing_whitespace (PyStr.strip raw) /\
    PyStr.strip ("  Hello there  " ++ Fixture.newline)%string = "Hello there".
Proof.
  intros Hm Hok.
  destruct (run_ok _ _ _ _ _ _ Hm Hok)
    as (inject & text & Hi & Hr & _ & _ & _ & Hl).
  pose proof (run_calls service environ _ _ _ _ Hm Hi) as Hc.
  destruct ((service (ext w) (MODEL_NAME environ)
               (effective inject history)).1) as [response|e0] eqn:Ha;
    [|discriminate].
  simpl in Hr. unfold reply_text in Hr.
  destruct (Py.getitem_str response "choices") as [choices|?] eqn:H1;
    [|discriminate].
  destruct (Py.getitem_int choices 0) as [choice|?] eqn:H2; [|discriminate].
  destruct (Py.getitem_str choice "message") as [message|?] eqn:H3;
    [|discriminate].
  destruct (Py.getitem_str message "content") as [content|?] eqn:H4;
    [|discriminate].
  destruct content as [|raw| |]; try discriminate.
  simpl in Hr. injection Hr as <-.
  exists (effective inject history), response, choices, choice, message, raw.
  destruct (PyStrFacts.strip_spec raw)
    as (pre & suf & Hraw & Hpre & Hsuf & Hlead & Htrail).
  repeat (split; [done|]).
  split; [by exists pre, suf|].
  repeat (split; [done|]).
  reflexivity.
Qed.

(** C6.  When the call of the completion service fails, by raising or by
    answering with a response from which the reply cannot be read (no
    first choice, for one), [get_agent_response] raises that very
    exception, as it is, and returns no list; the caller's list, like every
    list that existed before the call, holds what it held. *)
Theorem failure_propagates (w : world S) (messages : loc)
    (history sent : list message) (e : exn E) :
  heap w !! messages = Some history ->
  calls (run messages w).2 = calls w ++ [(MODEL_NAME environ, sent)] ->
  (exists e0,
      (service (ext w) (MODEL_NAME environ) sent).1 = inr e0 /\
      e = Raised e0) \/
  (exists response,
      (service (ext w) (MODEL_NAME environ) sent).1 = inl response /\
      reply_text response = Raise e) ->
  (run messages w).1 = Raise e /\
  heap (run messages w).2 !! messages = Some history /\
  (forall k old, heap w !! k = Some old ->
                 heap (run messages w).2 !! k = Some old).
Proof.
  intros Hm Hcalls Hfail.
  split; [|split; [by apply run_heap_old | intros k old Hk; by apply run_heap_old]].
  revert Hcalls. rewrite (get_agent_response_closed _ _ _ _ _ Hm).
  destruct (injects history) as [inject|e1]; simpl.
  - assert (Hreply : forall sent',
               sent' = sent ->
               reply_of (service (ext w) (MODEL_NAME environ) sent').1 =
               Raise e).
    { intros ? ->. destruct Hfail as [(e0 & -> & ->)|(response & -> & Hr)];
        [reflexivity | exact Hr]. }
    destruct (reply_of _) as [text|e1] eqn:Hr; simpl; intros Hcalls;
      apply app_inv_head in Hcalls; injection Hcalls as Hsent;
      rewrite (Hreply _ Hsent) in Hr; congruence.
  - intros Hcalls. apply (f_equal length) in Hcalls.
    rewrite length_app in Hcalls. simpl in Hcalls. lia.
Qed.

(** C7.  When a call has returned and its result is given to a second call,
    the second call sends the first result as it is, with no message put in
    front, and when it returns, its result is the first result followed by
    one [assistant] message: the same first message and as many [system]
    messages as before. *)
Theorem no_second_injection (w : world S) (messages l1 : loc)
    (history : list message) :
  heap w !! messages = Some history ->
  (run messages w).1 = Ok l1 ->
  let w1 := (run messages w).2 in
  exists out1 : list message,
    heap w1 !! l1 = Some out1 /\
    calls (run l1 w1).2 = calls w1 ++ [(MODEL_NAME environ, out1)] /\
    (forall l2, (run l1 w1).1 = Ok l2 ->
       exists reply : message,
         heap (run l1 w1).2 !! l2 = Some (out1 ++ [reply]) /\
         reply !! "role" = Some "assistant" /\
         head (out1 ++ [reply]) = head out1 /\
         system_count (out1 ++ [reply]) = system_count out1).
Proof.
  intros Hm Hok w1.
  destruct (run_ok_lookup _ _ _ _ _ _ Hm Hok) as (inject & text & Hi & Hl).
  fold w1 in Hl.
  assert (Hhead : exists m0 rest,
             effective inject history ++ [assistant_message text] = m0 :: rest
             /\ m0 !! "role" = Some "system").
  { destruct inject; simpl.
    - by exists system_message, (history ++ [assistant_message text]).
    - destruct history as [|m0 rest]; [discriminate|]. simpl in Hi.
      destruct (m0 !! "role") as [role|] eqn:Hrole; [|discriminate].
      injection Hi as Hi. apply negb_false_iff in Hi.
      apply String.eqb_eq in Hi as ->.
      by exists m0, (rest ++ [assistant_message text]). }
  destruct Hhead as (m0 & rest & Hout & Hrole).
  exists (effective inject history ++ [assistant_message text]).
  split; [exact Hl|]. rewrite Hout in Hl |- *.
  pose proof (injects_false (E := E) m0 rest Hrole) as Hi1.
  split; [exact (run_calls _ _ _ _ _ _ Hl Hi1)|].
  intros l2 Hok2.
  destruct (run_ok_lookup _ _ _ _ _ _ Hl Hok2)
    as (inject2 & text2 & Hi2 & Hl2).
  rewrite Hi1 in Hi2. injection Hi2 as <-.
  exists (assistant_message text2).
  split; [exact Hl2|]. split; [reflexivity|]. split; [reflexivity|].
  apply system_count_reply.
Qed.

(** C8, as the code has it.  For a history whose first message has a
    [role] entry, whatever the roles and contents of its messages are, the
    call checks nothing and sends the history, behind at most one message,
    to the completion service: an exception of the call is one the service
    raised or one raised on reading its response.  A first message without
    a [role] entry makes the subscript raise [KeyError] before anything is
    sent. *)
Theorem no_local_validation (w : world S) (messages : loc)
    (m0 : message) (rest : list message) :
  heap w !! messages = Some (m0 :: rest) ->
  (forall role, m0 !! "role" = Some role ->
     exists front : list message,
       length front <= 1 /\
       calls (run messages w).2 =
         calls w ++ [(MODEL_NAME environ, front ++ m0 :: rest)] /\
       (forall e, (run messages w).1 = Raise e ->
          reply_of (service (ext w) (MODEL_NAME environ)
                      (front ++ m0 :: rest)).1 = Raise e)) /\
  (m0 !! "role" = None ->
     run messages w = (Raise (KeyError (KStr "role")), w)).
Proof.
  intros Hm. rewrite (get_agent_response_closed _ _ _ _ _ Hm). simpl.
  split.
  - intros role Hrole. rewrite Hrole.
    set (inject := negb (String.eqb role "system")).
    exists (if inject then [system_message] else []).
    replace ((if inject then [system_message] else []) ++ m0 :: rest)
      with (effective inject (m0 :: rest)) by (by destruct inject).
    split; [destruct inject; simpl; lia|].
    destruct (reply_of _) as [text|e0]; simpl.
    + split; [reflexivity | discriminate].
    + split; [reflexivity | by intros e [= <-]].
  - intros Hrole. by rewrite Hrole.
Qed.

(** C9.  The model identifier is the value of [MODEL_NAME] in the
    environment the module is loaded in, and ["gpt-4o-mini"] when the
    variable is not set; no call changes it, and every request to the
    completion service, of one call or of a sequence of calls, is made for
    that identifier. *)
Theorem model_identifier_fixed :
  (forall v, environ !! "MODEL_NAME" = Some v -> MODEL_NAME environ = v) /\
  (environ !! "MODEL_NAME" = None -> MODEL_NAME environ = "gpt-4o-mini") /\
  (forall (w : world S) (messages : loc),
      exists sent,
        calls (run messages w).2 = calls w ++ sent /\
        length sent <= 1 /\
        Forall (fun c : string * list message => c.1 = MODEL_NAME environ)
               sent) /\
  (forall (inputs : list loc) (w : world S),
      exists sent,
        calls (session service environ inputs w) = calls w ++ sent /\
        Forall (fun c : string * list message => c.1 = MODEL_NAME environ)
               sent).
Proof.
  unfold MODEL_NAME. split; [by intros v ->|]. split; [by intros ->|].
  split.
  - intros w messages. apply run_calls_model.
  - intros inputs w. apply session_calls_model.
Qed.

(** C10.  When the call returns, the first message of the returned list has
    the role [system] and the last one the role [assistant], for every
    history.  The test on the first message is equality of strings: a first
    message with another role, [System] for one, gets the system message
    put in front of it, and a first message with the role [system] stays
    the first. *)
Theorem system_first_assistant_last (w : world S) (messages l : loc)
    (history : list message) :
  heap w !! messages = Some history ->
  (run messages w).1 = Ok l ->
  exists (first : message) (middle : list message) (last : message),
    heap (run messages w).2 !! l = Some (first :: middle ++ [last]) /\
    first !! "role" = Some "system" /\
    last !! "role" = Some "assistant" /\
    (forall m0 rest role,
        history = m0 :: rest -> m0 !! "role" = Some role ->
        role <> "system" ->
        first = system_message /\ middle = history) /\
    (forall m0 rest,
        history = m0 :: rest -> m0 !! "role" = Some "System" ->
        first = system_message /\ middle = history) /\
    (forall m0 rest,
        history = m0 :: rest -> m0 !! "role" = Some "system" ->
        first = m0 /\ middle = rest).
Proof.
  intros Hm Hok.
  destruct (run_ok_lookup _ _ _ _ _ _ Hm Hok) as (inject & text & Hi & Hl).
  assert (Hother : forall m0 rest role,
             history = m0 :: rest -> m0 !! "role" = Some role ->
             role <> "system" -> inject = true).
  { intros m0 rest role -> Hrole Hne.
    rewrite (injects_true (m0 :: rest)) in Hi; [by injection Hi|].
    right. by exists m0, rest, role. }
  assert (Hsame : forall m0 rest,
             history = m0 :: rest -> m0 !! "role" = Some "system" ->
             inject = false).
  { intros m0 rest -> Hrole.
    rewrite (injects_false m0 rest Hrole) in Hi. by injection Hi. }
  destruct inject; simpl in Hl.
  - exists system_message, history, (assistant_message text).
    split; [exact Hl|]. split; [reflexivity|]. split; [reflexivity|].
    split; [done|]. split; [done|].
    intros m0 rest Hh Hrole. by specialize (Hsame _ _ Hh Hrole).
  - destruct history as [|m0 rest]; [discriminate|]. simpl in Hi.
    destruct (m0 !! "role") as [role|] eqn:Hrole; [|discriminate].
    injection Hi as Hi. apply negb_false_iff in Hi.
    apply String.eqb_eq in Hi as ->.
    exists m0, rest, (assistant_message text).
    split; [exact Hl|]. split; [exact Hrole|]. split; [reflexivity|].
    split; [|split].
    + intros m1 rest1 role1 Hh Hr Hne.
      by specialize (Hother _ _ _ Hh Hr Hne).
    + intros m1 rest1 Hh Hr.
      by specialize (Hother _ _ "System" Hh Hr ltac:(discriminate)).
    + by intros m1 rest1 [= <- <-] _.
Qed.

End Claims.

(** ** The properties on runs *)

Module Runs.

Import Fixture.
Local Open Scope list_scope.

Lemma system_message_injected_run :
  calls (greeted user_hi).2 =
    [("gpt-4o-mini", system_message :: user_hi)] /\
  exists reply,
    heap (greeted user_hi).2 !! 4 = Some (system_message :: user_hi ++ [reply]).
Proof.
  destruct (system_message_injected greeter no_environ (start user_hi) 0 user_hi)
    as (_ & _ & Hcalls & Hout).
  - reflexivity.
  - right. exists (mk_message "user" "hi"), [], "user".
    split; [reflexivity|]. split; [reflexivity | discriminate].
  - split; [exact Hcalls|]. apply Hout. reflexivity.
Defined.

Lemma leading_system_message_kept_run :
  calls (greeted custom_hi).2 = [("gpt-4o-mini", custom_hi)] /\
  exists reply,
    heap (greeted custom_hi).2 !! 2 =
      Some (mk_message "system" "custom" :: [mk_message "user" "hi"] ++ [reply]).
Proof.
  destruct (leading_system_message_kept greeter no_environ (start custom_hi) 0
              (mk_message "system" "custom") [mk_message "user" "hi"])
    as (Hcalls & Hout).
  - reflexivity.
  - reflexivity.
  - split; [exact Hcalls|]. apply Hout. reflexivity.
Defined.

Lemma one_reply_appended_run :
  exists (front sent : list message) (text : string),
    calls (greeted user_hi).2 = [] ++ [("gpt-4o-mini", sent)] /\
    sent = front ++ user_hi /\
    length front <= 1 /\
    heap (greeted user_hi).2 !! 4 =
      Some (sent ++ [mk_message "assistant" text]) /\
    4 <> 0 /\
    heap (start user_hi) !! 4 = None /\
    heap (greeted user_hi).2 !! 0 = Some user_hi /\
    (forall k old, heap (start user_hi) !! k = Some old ->
                   heap (greeted user_hi).2 !! k = Some old).
Proof.
  apply (one_reply_appended greeter no_environ (start user_hi) 0 4 user_hi).
  - reflexivity.
  - reflexivity.
Defined.

Lemma result_length_run :
  (exists out, heap (greeted custom_hi).2 !! 2 = Some out /\ length out = 3) /\
  (exists out, heap (greeted user_hi).2 !! 4 = Some out /\ length out = 3).
Proof.
  split.
  - destruct (result_length greeter no_environ (start custom_hi) 0 2 custom_hi)
      as (out & Hout & Hkept & _); [reflexivity | reflexivity |].
    exists out. split; [exact Hout|]. apply Hkept.
    by exists (mk_message "system" "custom"), [mk_message "user" "hi"].
  - destruct (result_length greeter no_environ (start user_hi) 0 4 user_hi)
      as (out & Hout & _ & Hput); [reflexivity | reflexivity |].
    exists out. split; [exact Hout|]. apply Hput.
    right. exists (mk_message "user" "hi"), [], "user".
    split; [reflexivity|]. split; [reflexivity | discriminate].
Defined.

Lemma reply_content_stripped_run :
  exists (sent : list message) (raw : string),
    heap (greeted user_hi).2 !! 4 =
      Some (sent ++ [mk_message "assistant" (PyStr.strip raw)]) /\
    ~ PyStr.leading_whitespace (PyStr.strip raw) /\
    ~ PyStr.trailing_whitespace (PyStr.strip raw).
Proof.
  destruct (reply_content_stripped greeter no_environ (start user_hi) 0 4 user_hi)
    as (sent & _ & _ & _ & _ & raw & _ & _ & _ & _ & _ & _ & Hout & _ & Hl & Ht & _);
    [reflexivity | reflexivity |].
  by exists sent, raw.
Defined.

Lemma failure_propagates_run :
  ((refused user_hi).1 = Raise (Raised "RateLimitError") /\
   heap (refused user_hi).2 !! 0 = Some user_hi) /\
  ((unanswered user_hi).1 = Raise IndexError /\
   heap (unanswered user_hi).2 !! 0 = Some user_hi).
Proof.
  split.
  - destruct (failure_propagates refusing no_environ (start user_hi) 0 user_hi
                (system_message :: user_hi) (Raised "RateLimitError"))
      as (Hraise & Hkept & _); [reflexivity | reflexivity | | by split].
    left. by exists "RateLimitError".
  - destruct (failure_propagates silent no_environ (start user_hi) 0 user_hi
                (system_message :: user_hi) IndexError)
      as (Hraise & Hkept & _); [reflexivity | reflexivity | | by split].
    right. by exists (VDict [("choices", VList [])]).
Defined.

Lemma no_second_injection_run :
  exists (out1 : list message) (reply : message),
    heap (greeted user_hi).2 !! 4 = Some out1 /\
    heap (get_agent_response greeter no_environ 4 (greeted user_hi).2).2 !! 6 =
      Some (out1 ++ [reply]) /\
    system_count (out1 ++ [reply]) = system_count out1.
Proof.
  destruct (no_second_injection greeter no_environ (start user_hi) 0 4 user_hi)
    as (out1 & Hout1 & _ & Hnext); [reflexivity | reflexivity |].
  destruct (Hnext 6) as (reply & Hout2 & _ & _ & Hcount); [reflexivity|].
  by exists out1, reply.
Defined.

Lemma no_local_validation_run :
  exists front : list message,
    length front <= 1 /\
    calls (greeted unknown_role).2 =
      [("gpt-4o-mini", front ++ unknown_role)].
Proof.
  destruct (no_local_validation greeter no_environ (start unknown_role) 0
              (mk_message "chef" "") []) as (Hsent & _); [reflexivity|].
  destruct (Hsent "chef") as (front & Hlen & Hcalls & _); [reflexivity|].
  by exists front.
Defined.

(** A history of one message without a [role] entry: the call raises
    [KeyError] and nothing was sent to the service, which would have
    answered. *)
Lemma missing_role_raises_before_the_call :
  no_role <> [] /\
  (greeted no_role).1 = Raise (KeyError (KStr "role")) /\
  calls (greeted no_role).2 = [] /\
  (greeter 0 "gpt-4o-mini" no_role).1 =
    inl (response_with (VStr ("  Hello there  " ++ newline)%string)).
Proof. repeat split; discriminate || reflexivity. Qed.

Lemma system_first_assistant_last_run :
  exists (first : message) (middle : list message) (last : message),
    heap (greeted capital_system).2 !! 4 = Some (first :: middle ++ [last]) /\
    first !! "role" = Some "system" /\
    last !! "role" = Some "assistant" /\
    first = system_message /\ middle = capital_system.
Proof.
  destruct (system_first_assistant_last greeter no_environ
              (start capital_system) 0 4 capital_system)
    as (first & middle & last & Hout & Hfirst & Hlast & _ & Hcap & _);
    [reflexivity | reflexivity |].
  exists first, middle, last.
  repeat (split; [assumption|]).
  by apply (Hcap (mk_message "System" "Be brief.") []).
Defined.

End Runs.

(** ** More facts about [str.strip] *)

Module PyStrMore.

Import PyStr PyStrFacts.
Local Open Scope list_scope.

(** Every whitespace character is one well-formed UTF-8 character: as many
    bytes as its first byte announces. *)
Lemma whitespace_chars :
  Forall (fun t : list ascii =>
            match t with
            | [] => False
            | b :: _ => length t = Py.utf8_width b
            end) whitespace.
Proof. unfold whitespace. repeat constructor. Qed.

(** So no whitespace character is the start of another. *)
Lemma whitespace_prefix_free (t t' r r' : list ascii) :
  t ∈ whitespace -> t' ∈ whitespace -> t ++ r = t' ++ r' -> t = t' /\ r = r'.
Proof.
  intros Ht Ht' Heq.
  pose proof whitespace_chars as Hw. rewrite Forall_forall in Hw.
  pose proof (Hw _ Ht) as H1. pose proof (Hw _ Ht') as H2.
  destruct t as [|b t]; [contradiction|].
  destruct t' as [|b' t']; [contradiction|].
  assert (b = b') as <- by (by injection Heq).
  apply app_inj_1; [congruence | exact Heq].
Qed.

Lemma drop_one_whitespace (t r : list ascii) :
  t ∈ whitespace -> drop_one whitespace (t ++ r) = Some r.
Proof.
  intros Ht.
  destruct (drop_one whitespace (t ++ r)) as [r'|] eqn:E.
  - destruct (drop_one_Some _ _ _ E) as (t' & Ht' & Heq).
    by destruct (whitespace_prefix_free _ _ _ _ Ht Ht' Heq) as [_ ->].
  - apply drop_one_None in E. exfalso. apply E. by exists t, r.
Qed.

Lemma lstrip_fuel_run_all (s : list ascii) :
  run whitespace s ->
  forall n, length s <= n -> lstrip_fuel whitespace n s = [].
Proof.
  induction 1 as [|t r Ht _ IH]; intros n Hn.
  - destruct n; reflexivity.
  - pose proof whitespace_nonempty as Hne. rewrite Forall_forall in Hne.
    specialize (Hne _ Ht).
    rewrite length_app in Hn.
    destruct n as [|n]; [destruct t; [done | simpl in Hn; lia]|].
    cbn [lstrip_fuel]. rewrite (drop_one_whitespace _ _ Ht).
    apply IH. destruct t; [done | simpl in Hn; lia].
Qed.

(** A text of whitespace only is stripped to the empty text. *)
Lemma strip_blank (s : string) : all_whitespace s -> strip s = "".
Proof.
  unfold all_whitespace, strip. intros Hrun.
  unfold lstrip, lstrip_with.
  by rewrite (lstrip_fuel_run_all _ Hrun _ (le_n _)).
Qed.

Lemma lstrip_fuel_fixed toks n (s : list ascii) :
  drop_one toks s = None -> lstrip_fuel toks n s = s.
Proof. intros Hs. destruct n; simpl; [reflexivity | by rewrite Hs]. Qed.

(** A text with no whitespace at either end is left as it is. *)
Lemma strip_clean (s : string) :
  ~ leading_whitespace s -> ~ trailing_whitespace s -> strip s = s.
Proof.
  unfold leading_whitespace, trailing_whitespace, strip. intros Hl Ht.
  unfold lstrip, lstrip_with.
  rewrite lstrip_fuel_fixed by (by apply drop_one_None).
  unfold rstrip, lstrip_with.
  rewrite lstrip_fuel_fixed.
  - by rewrite rev_involutive, string_of_list_ascii_of_string.
  - apply drop_one_None. intros (t & r & Hin & Heq). apply Ht.
    apply list_elem_of_fmap in Hin as (t0 & -> & Hin0).
    exists t0, (rev r). split; [exact Hin0|].
    apply (f_equal (@rev ascii)) in Heq.
    by rewrite rev_involutive, rev_app_distr, rev_involutive in Heq.
Qed.

(** The tests of a leading and of a trailing whitespace character, as the
    scan makes them. *)
Lemma no_leading_whitespace (s : string) :
  drop_one whitespace (list_ascii_of_string s) = None ->
  ~ leading_whitespace s.
Proof. intros H. by apply drop_one_None. Qed.

Lemma no_trailing_whitespace (s : string) :
  drop_one (map (@rev ascii) whitespace) (rev (list_ascii_of_string s)) = None ->
  ~ trailing_whitespace s.
Proof.
  intros H (t & r & Hin & Heq). apply drop_one_None in H. apply H.
  exists (rev t), (rev r). split.
  - apply list_elem_of_fmap. by exists t.
  - unfold trailing_whitespace in *. by rewrite Heq, rev_app_distr.
Qed.

Lemma whitespace_elem (t : list ascii) :
  bool_decide (t ∈ whitespace) = true -> t ∈ whitespace.
Proof. intros H. by apply bool_decide_eq_true in H. Qed.

End PyStrMore.

(** ** More consequences of the closed form *)

Section MoreFacts.

Context {E S : Type}.
Variable service : S -> string -> list message -> (pyval + E) * S.
Variable environ : gmap string string.

Local Open Scope list_scope.

Local Abbreviation run := (get_agent_response service environ).

Lemma reply_text_content (response : pyval) :
  @reply_text E response =
    match first_choice_content response with
    | Ok content => Py.method_strip content
    | Raise e => Raise e
    end.
Proof.
  unfold reply_text, first_choice_content.
  destruct (Py.getitem_str response "choices") as [choices|]; [|reflexivity].
  destruct (Py.getitem_int choices 0) as [choice|]; [|reflexivity].
  by destruct (Py.getitem_str choice "message") as [message|].
Qed.

Lemma role_readable_injects (history : list message) :
  role_readable history -> exists inject, @injects E history = Ok inject.
Proof.
  destruct history as [|m0 rest]; simpl; [by exists true|].
  intros [role Hrole]. rewrite Hrole. by eexists.
Qed.

(** The sequence of the request a call has logged. *)
Lemma run_sent (w : world S) (messages : loc) (history sent : list message) :
  heap w !! messages = Some history ->
  calls (run messages w).2 = calls w ++ [(MODEL_NAME environ, sent)] ->
  exists inject,
    @injects E history = Ok inject /\ sent = effective inject history.
Proof.
  intros Hm. rewrite (get_agent_response_closed _ _ _ _ _ Hm).
  destruct (injects history) as [inject|e]; simpl.
  - intros Hc. exists inject. split; [reflexivity|].
    destruct (reply_of _); simpl in Hc;
      apply app_inv_head in Hc; by injection Hc.
  - intros Hc. apply (f_equal length) in Hc.
    rewrite length_app in Hc. simpl in Hc. lia.
Qed.

(** What a call that has sent [sent] gives, by what the service answered. *)
Lemma run_reply (w : world S) (messages : loc) (history sent : list message) :
  heap w !! messages = Some history ->
  calls (run messages w).2 = calls w ++ [(MODEL_NAME environ, sent)] ->
  match reply_of (service (ext w) (MODEL_NAME environ) sent).1 with
  | Ok text =>
      exists l,
        (run messages w).1 = Ok l /\
        heap (run messages w).2 !! l = Some (sent ++ [assistant_message text]) /\
        heap w !! l = None
  | Raise e => (run messages w).1 = Raise e
  end.
Proof.
  intros Hm Hc. destruct (run_sent _ _ _ _ Hm Hc) as (inject & Hi & ->).
  rewrite (get_agent_response_closed _ _ _ _ _ Hm), Hi. simpl.
  destruct (reply_of _) as [text|e]; simpl; [|reflexivity].
  eexists. split; [reflexivity|]. split.
  - rewrite lookup_app_r by lia. by replace (_ - _) with 1 by lia.
  - apply lookup_ge_None_2. destruct inject; simpl; rewrite ?length_app; lia.
Qed.

(** The list a call returns starts with a [system] message. *)
Lemma run_ok_head (w : world S) (messages l : loc) (history : list message) :
  heap w !! messages = Some history ->
  (run messages w).1 = Ok l ->
  exists m0 rest,
    heap (run messages w).2 !! l = Some (m0 :: rest) /\
    m0 !! "role" = Some "system".
Proof.
  intros Hm Hok.
  destruct (run_ok_lookup _ _ _ _ _ _ Hm Hok) as (inject & text & Hi & Hl).
  destruct inject; simpl in Hl.
  - by exists system_message, (history ++ [assistant_message text]).
  - destruct history as [|m0 rest]; [discriminate|]. simpl in Hi.
    destruct (m0 !! "role") as [role|] eqn:Hrole; [|discriminate].
    injection Hi as Hi. apply negb_false_iff in Hi.
    apply String.eqb_eq in Hi as ->.
    by exists m0, (rest ++ [assistant_message text]).
Qed.

Lemma system_count_cons (m : message) (ms : list message) :
  system_count (m :: ms) =
    (if decide (m !! "role" = Some "system") then 1 else 0) + system_count ms.
Proof.
  unfold system_count. rewrite filter_cons. by destruct (decide _).
Qed.

End MoreFacts.

(** ** Further properties of the call *)

Section More.

Context {E S : Type}.
Variable service : S -> string -> list message -> (pyval + E) * S.
Variable environ : gmap string string.

Local Open Scope list_scope.

Local Abbreviation run := (get_agent_response service environ).

(** X1.  When the service answers the request with a response whose first
    choice has a message with a text content, the call returns: the
    returned list is new and holds the sequence sent followed by one
    [assistant] message with the stripped text.  Only the first choice is
    read. *)
Theorem call_returns (w : world S) (messages : loc)
    (history sent : list message) (response : pyval) (raw : string) :
  heap w !! messages = Some history ->
  calls (run messages w).2 = calls w ++ [(MODEL_NAME environ, sent)] ->
  (service (ext w) (MODEL_NAME environ) sent).1 = inl response ->
  first_choice_content (E := E) response = Ok (VStr raw) ->
  exists l,
    (run messages w).1 = Ok l /\
    heap (run messages w).2 !! l =
      Some (sent ++ [mk_message "assistant" (PyStr.strip raw)]) /\
    heap w !! l = None.
Proof.
  intros Hm Hc Ha Hcontent.
  pose proof (run_reply service environ _ _ _ _ Hm Hc) as Hr.
  rewrite Ha in Hr. simpl in Hr.
  rewrite reply_text_content, Hcontent in Hr. exact Hr.
Qed.

(** X2.  On a history that is empty or whose first message has a [role]
    entry, a call sends exactly one request, the history behind at most one
    message, and leaves the service in the state that request put it in,
    whether the call then returns or raises: nothing is sent twice. *)
Theorem one_request_per_call (w : world S) (messages : loc)
    (history : list message) :
  heap w !! messages = Some history ->
  role_readable history ->
  exists front : list message,
    length front <= 1 /\
    calls (run messages w).2 =
      calls w ++ [(MODEL_NAME environ, front ++ history)] /\
    ext (run messages w).2 =
      (service (ext w) (MODEL_NAME environ) (front ++ history)).2.
Proof.
  intros Hm Hread.
  destruct (role_readable_injects (E := E) _ Hread) as (inject & Hi).
  rewrite (get_agent_response_closed _ _ _ _ _ Hm), Hi. simpl.
  exists (if inject then [system_message] else []).
  replace ((if inject then [system_message] else []) ++ history)
    with (effective inject history) by (by destruct inject).
  split; [destruct inject; simpl; lia|].
  by destruct (reply_of _).
Qed.

(** X3.  When the content of the first choice's message is not a text
    ([None], for one), the call raises [AttributeError] for [strip], after
    the request was sent; no list is returned and the caller's list holds
    what it held. *)
Theorem non_text_content_raises (w : world S) (messages : loc)
    (history sent : list message) (response content : pyval) :
  heap w !! messages = Some history ->
  calls (run messages w).2 = calls w ++ [(MODEL_NAME environ, sent)] ->
  (service (ext w) (MODEL_NAME environ) sent).1 = inl response ->
  first_choice_content (E := E) response = Ok content ->
  (forall raw, content <> VStr raw) ->
  (run messages w).1 = Raise (AttributeError "strip") /\
  heap (run messages w).2 !! messages = Some history.
Proof.
  intros Hm Hc Ha Hcontent Hnot.
  split; [|by apply run_heap_old].
  pose proof (run_reply service environ _ _ _ _ Hm Hc) as Hr.
  rewrite Ha in Hr. simpl in Hr.
  rewrite reply_text_content, Hcontent in Hr.
  destruct content as [|raw| |]; try exact Hr.
  by destruct (Hnot raw).
Qed.

(** X4.  When a part of the response is missing, the call raises the
    exception of the subscript that fails: [KeyError] for [choices],
    [message] or [content] when the mapping has no such key, and
    [IndexError] when the list of choices is empty. *)
Theorem missing_part_raises (w : world S) (messages : loc)
    (history sent : list message) (entries : list (string * pyval)) :
  heap w !! messages = Some history ->
  calls (run messages w).2 = calls w ++ [(MODEL_NAME environ, sent)] ->
  (service (ext w) (MODEL_NAME environ) sent).1 = inl (VDict entries) ->
  (Py.assoc "choices" entries = None ->
   (run messages w).1 = Raise (KeyError (KStr "choices"))) /\
  (Py.assoc "choices" entries = Some (VList []) ->
   (run messages w).1 = Raise IndexError) /\
  (forall centries others,
      Py.assoc "choices" entries = Some (VList (VDict centries :: others)) ->
      Py.assoc "message" centries = None ->
      (run messages w).1 = Raise (KeyError (KStr "message"))) /\
  (forall centries others mentries,
      Py.assoc "choices" entries = Some (VList (VDict centries :: others)) ->
      Py.assoc "message" centries = Some (VDict mentries) ->
      Py.assoc "content" mentries = None ->
      (run messages w).1 = Raise (KeyError (KStr "content"))).
Proof.
  intros Hm Hc Ha.
  pose proof (run_reply service environ _ _ _ _ Hm Hc) as Hr.
  rewrite Ha in Hr. simpl in Hr. unfold reply_text in Hr. simpl in Hr.
  split; [|split; [|split]].
  - intros H1. by rewrite H1 in Hr.
  - intros H1. by rewrite H1 in Hr.
  - intros centries others H1 H2. rewrite H1 in Hr. simpl in Hr.
    by rewrite H2 in Hr.
  - intros centries others mentries H1 H2 H3. rewrite H1 in Hr. simpl in Hr.
    rewrite H2 in Hr. simpl in Hr. by rewrite H3 in Hr.
Qed.

(** X5.  Only the first message decides whether the system message is put
    in front: when the call returns, the result has as many [system]
    messages as the history if the first message has the role [system], and
    one more if the history is empty or starts with another role, also when
    the history has a [system] message further on. *)
Theorem system_count_result (w : world S) (messages l : loc)
    (history : list message) :
  heap w !! messages = Some history ->
  (run messages w).1 = Ok l ->
  exists out,
    heap (run messages w).2 !! l = Some out /\
    ((exists m0 rest,
         history = m0 :: rest /\ m0 !! "role" = Some "system") ->
     system_count out = system_count history) /\
    (history = [] \/
     (exists m0 rest role,
         history = m0 :: rest /\ m0 !! "role" = Some role /\
         role <> "system") ->
     system_count out = system_count history + 1).
Proof.
  intros Hm Hok.
  destruct (run_ok_lookup _ _ _ _ _ _ Hm Hok) as (inject & text & Hi & Hl).
  eexists. split; [exact Hl|]. rewrite system_count_reply.
  split.
  - intros (m0 & rest & -> & Hrole).
    rewrite (injects_false m0 rest Hrole) in Hi. by injection Hi as <-.
  - intros Hcase.
    rewrite (injects_true history Hcase) in Hi. injection Hi as <-.
    simpl. rewrite system_count_cons.
    rewrite decide_True by reflexivity. lia.
Qed.

(** X6.  Once a call has returned, a later call on any list that starts
    with its result (the result with further messages behind it) sends that
    list as it is, with nothing put in front, and when it returns, its
    result is that list followed by one [assistant] message. *)
Theorem later_turns_sent_as_is (w : world S) (messages l1 : loc)
    (history out1 : list message)
    (w2 : world S) (l2 : loc) (further : list message) :
  heap w !! messages = Some history ->
  (run messages w).1 = Ok l1 ->
  heap (run messages w).2 !! l1 = Some out1 ->
  heap w2 !! l2 = Some (out1 ++ further) ->
  calls (run l2 w2).2 =
    calls w2 ++ [(MODEL_NAME environ, out1 ++ further)] /\
  (forall l3, (run l2 w2).1 = Ok l3 ->
     exists reply : message,
       heap (run l2 w2).2 !! l3 = Some ((out1 ++ further) ++ [reply]) /\
       reply !! "role" = Some "assistant" /\
       system_count ((out1 ++ further) ++ [reply]) =
         system_count (out1 ++ further)).
Proof.
  intros Hm Hok Hout1 Hm2.
  destruct (run_ok_head _ _ _ _ _ _ Hm Hok) as (m0 & rest & Hl & Hrole).
  rewrite Hout1 in Hl. injection Hl as ->.
  pose proof (injects_false (E := E) m0 (rest ++ further) Hrole) as Hi.
  simpl in Hm2 |- *.
  split; [exact (run_calls _ _ _ _ _ _ Hm2 Hi)|].
  intros l3 Hok3.
  destruct (run_ok_lookup _ _ _ _ _ _ Hm2 Hok3)
    as (inject & text & Hi' & Hl3).
  rewrite Hi in Hi'. injection Hi' as <-.
  exists (assistant_message text).
  split; [exact Hl3|]. split; [reflexivity|].
  apply (system_count_reply (m0 :: rest ++ further)).
Qed.

(** X7.  When the text the service answers with is whitespace only, the call
    returns all the same, and the appended [assistant] message has the empty
    content. *)
Theorem blank_reply_gives_empty_content (w : world S) (messages : loc)
    (history sent : list message) (response : pyval) (raw : string) :
  heap w !! messages = Some history ->
  calls (run messages w).2 = calls w ++ [(MODEL_NAME environ, sent)] ->
  (service (ext w) (MODEL_NAME environ) sent).1 = inl response ->
  first_choice_content (E := E) response = Ok (VStr raw) ->
  PyStr.all_whitespace raw ->
  exists l,
    (run messages w).1 = Ok l /\
    heap (run messages w).2 !! l = Some (sent ++ [mk_message "assistant" ""]).
Proof.
  intros Hm Hc Ha Hcontent Hblank.
  pose proof (run_reply service environ _ _ _ _ Hm Hc) as Hr.
  rewrite Ha in Hr. simpl in Hr.
  rewrite reply_text_content, Hcontent in Hr. simpl in Hr.
  rewrite (PyStrMore.strip_blank raw Hblank) in Hr.
  destruct Hr as (l & Hok & Hl & _). by exists l.
Qed.

(** X8.  When the text the service answers with has no whitespace at either
    end, the appended [assistant] message has exactly that text as its
    content: whitespace inside the text is kept. *)
Theorem clean_reply_kept (w : world S) (messages : loc)
    (history sent : list message) (response : pyval) (raw : string) :
  heap w !! messages = Some history ->
  calls (run messages w).2 = calls w ++ [(MODEL_NAME environ, sent)] ->
  (service (ext w) (MODEL_NAME environ) sent).1 = inl response ->
  first_choice_content (E := E) response = Ok (VStr raw) ->
  ~ PyStr.leading_whitespace raw ->
  ~ PyStr.trailing_whitespace raw ->
  exists l,
    (run messages w).1 = Ok l /\
    heap (run messages w).2 !! l = Some (sent ++ [mk_message "assistant" raw]).
Proof.
  intros Hm Hc Ha Hcontent Hlead Htrail.
  pose proof (run_reply service environ _ _ _ _ Hm Hc) as Hr.
  rewrite Ha in Hr. simpl in Hr.
  rewrite reply_text_content, Hcontent in Hr. simpl in Hr.
  rewrite (PyStrMore.strip_clean raw Hlead Htrail) in Hr.
  destruct Hr as (l & Hok & Hl & _). by exists l.
Qed.

End More.


(** ** The further properties on runs *)

Module MoreRuns.

Import Fixture Replies.
Local Open Scope list_scope.

Lemma call_returns_run :
  exists l,
    (get_agent_response two_choices no_environ 0 (start user_hi)).1 = Ok l /\
    heap (get_agent_response two_choices no_environ 0 (start user_hi)).2 !! l =
      Some ((system_message :: user_hi) ++
            [mk_message "assistant" (PyStr.strip " first ")]) /\
    heap (start user_hi) !! l = None.
Proof.
  apply (call_returns two_choices no_environ (start user_hi) 0 user_hi
           (system_message :: user_hi)
           two_choice_response " first ").
  - reflexivity.
  - reflexivity.
  - reflexivity.
  - reflexivity.
Defined.

Lemma one_request_per_call_run :
  exists front : list message,
    length front <= 1 /\
    calls (refused []).2 = [] ++ [("gpt-4o-mini", front ++ [])] /\
    ext (refused []).2 = 1.
Proof.
  apply (one_request_per_call refusing no_environ (start []) 0 []).
  - reflexivity.
  - exact I.
Defined.

Lemma non_text_content_raises_run :
  (get_agent_response contentless no_environ 0 (start user_hi)).1 =
    Raise (AttributeError "strip") /\
  heap (get_agent_response contentless no_environ 0 (start user_hi)).2 !! 0 =
    Some user_hi.
Proof.
  apply (non_text_content_raises contentless no_environ (start user_hi) 0
           user_hi (system_message :: user_hi) (response_with VNone) VNone).
  - reflexivity.
  - reflexivity.
  - reflexivity.
  - reflexivity.
  - discriminate.
Defined.

Lemma missing_part_raises_run :
  (get_agent_response messageless no_environ 0 (start user_hi)).1 =
    Raise (KeyError (KStr "message")).
Proof.
  destruct (missing_part_raises messageless no_environ (start user_hi) 0
              user_hi (system_message :: user_hi)
              messageless_entries)
    as (_ & _ & Hmessage & _); [reflexivity | reflexivity | reflexivity |].
  apply (Hmessage [] []); reflexivity.
Defined.

Lemma system_count_result_run :
  exists out,
    heap (greeted late_system).2 !! 4 = Some out /\ system_count out = 2.
Proof.
  destruct (system_count_result greeter no_environ (start late_system) 0 4
              late_system) as (out & Hout & _ & Hput);
    [reflexivity | reflexivity |].
  exists out. split; [exact Hout|]. apply Hput.
  right. exists (mk_message "user" "hi"), [mk_message "system" "custom"], "user".
  split; [reflexivity|]. split; [reflexivity | discriminate].
Defined.

Lemma later_turns_sent_as_is_run :
  calls (get_agent_response greeter no_environ 5 second_turn).2 =
    calls second_turn ++
    [("gpt-4o-mini",
      [system_message; mk_message "user" "hi";
       mk_message "assistant" "Hello there"] ++ [mk_message "user" "thanks"])].
Proof.
  apply (later_turns_sent_as_is greeter no_environ (start user_hi) 0 4 user_hi
           [system_message; mk_message "user" "hi";
            mk_message "assistant" "Hello there"]
           second_turn 5 [mk_message "user" "thanks"]).
  - reflexivity.
  - reflexivity.
  - reflexivity.
  - reflexivity.
Defined.

Lemma blank_reply_gives_empty_content_run :
  exists l,
    (get_agent_response blank no_environ 0 (start user_hi)).1 = Ok l /\
    heap (get_agent_response blank no_environ 0 (start user_hi)).2 !! l =
      Some ((system_message :: user_hi) ++ [mk_message "assistant" ""]).
Proof.
  apply (blank_reply_gives_empty_content blank no_environ (start user_hi) 0
           user_hi (system_message :: user_hi)
           (response_with (VStr ("   " ++ newline)%string))
           ("   " ++ newline)%string).
  - reflexivity.
  - reflexivity.
  - reflexivity.
  - reflexivity.
  - unfold PyStr.all_whitespace.
    change (list_ascii_of_string ("   " ++ newline)%string)
      with ([" "%char] ++ [" "%char] ++ [" "%char] ++ ["010"%char] ++ []).
    repeat (apply PyStr.run_cons;
            [apply PyStrMore.whitespace_elem; reflexivity|]).
    apply PyStr.run_nil.
Defined.

Lemma clean_reply_kept_run :
  exists l,
    (get_agent_response plain no_environ 0 (start user_hi)).1 = Ok l /\
    heap (get_agent_response plain no_environ 0 (start user_hi)).2 !! l =
      Some ((system_message :: user_hi) ++
            [mk_message "assistant" "Use 200 g  of spaghetti."]).
Proof.
  apply (clean_reply_kept plain no_environ (start user_hi) 0 user_hi
           (system_message :: user_hi)
           (response_with (VStr "Use 200 g  of spaghetti."))).
  - reflexivity.
  - reflexivity.
  - reflexivity.
  - reflexivity.
  - apply PyStrMore.no_leading_whitespace. reflexivity.
  - apply PyStrMore.no_trailing_whitespace. reflexivity.
Defined.

End MoreRuns.
